(** * pishutdown.py: shutdown and reboot buttons of the gateway

    The script src/pishutdown.py binds two push buttons, wired to two GPIO
    channels of a Raspberry Pi, to the commands that halt and restart the
    machine.  It is modelled as an interaction tree over the calls the
    script makes into the Python runtime (print, os.system, time.sleep) and
    into the RPi.GPIO package.  The two callbacks and the module-level
    statements are transcribed from the script; the GPIO package and the
    operating system are collaborators outside the repository and are given
    a small executable model that follows the words of the specification. *)

From Stdlib Require Import ZArith List String QArith Bool Lia.
From ITree Require Import ITree.
Import ListNotations ITreeNotations.
Local Open Scope itree_scope.
Local Open Scope string_scope.
Local Open Scope list_scope.
Local Open Scope Z_scope.

(** ** Values of the RPi.GPIO package used by the script *)

(** GPIO.BOARD numbers the physical pins of the header, GPIO.BCM the logical
    channels of the processor. *)
Inductive numbering : Type := BOARD | BCM.

Definition logical (m : numbering) : bool :=
  match m with BCM => true | BOARD => false end.

Inductive direction : Type := OUT | IN.

(** The pull_up_down argument of GPIO.setup; PUD_OFF is its default. *)
Inductive pull : Type := PUD_OFF | PUD_DOWN | PUD_UP.

Inductive edge : Type := RISING | FALLING | BOTH.

(** A change of level on an input line. *)
Inductive transition : Type := Fall | Rise.

(** The two functions of the script that are passed as callbacks. *)
Inductive callback : Type := fn_shutdown | fn_reboot.

(** Initialization raises one kind of error. *)
Inductive exn : Type := ConfigurationError.

(** ** Calls made by the script *)

Variant pyE : Type -> Type :=
| Print (s : string) : pyE unit
| OsSystem (command : string) : pyE Z
| GpioSetmode (m : numbering) : pyE unit
| GpioSetup (channel : Z) (d : direction) (pull_up_down : pull) : pyE unit
| GpioAddEventDetect (channel : Z) (e : edge) (cb : callback) (bouncetime : Z) : pyE unit
| TimeSleep (secs : Q) : pyE unit.

Definition print (s : string) : itree pyE unit := ITree.trigger (Print s).
Definition os_system (command : string) : itree pyE Z := ITree.trigger (OsSystem command).
Definition GPIO_setmode (m : numbering) : itree pyE unit := ITree.trigger (GpioSetmode m).
(** GPIO.setup(channel, direction): pull_up_down is left at its default. *)
Definition GPIO_setup (channel : Z) (d : direction) : itree pyE unit :=
  ITree.trigger (GpioSetup channel d PUD_OFF).
Definition GPIO_add_event_detect (channel : Z) (e : edge) (cb : callback) (bouncetime : Z)
  : itree pyE unit :=
  ITree.trigger (GpioAddEventDetect channel e cb bouncetime).
Definition time_sleep (secs : Q) : itree pyE unit := ITree.trigger (TimeSleep secs).

(** ** The script *)

(** def shutdown(pin): the status returned by os.system is dropped. *)
Definition shutdown (pin : Z) : itree pyE unit :=
  print "shutting down" ;;
  _ <- os_system "sudo shutdown -h now" ;;
  Ret tt.

(** def reboot(pin) *)
Definition reboot (pin : Z) : itree pyE unit :=
  print "rebooting" ;;
  _ <- os_system "sudo reboot" ;;
  Ret tt.

Definition body (cb : callback) : Z -> itree pyE unit :=
  match cb with
  | fn_shutdown => shutdown
  | fn_reboot => reboot
  end.

(** The five module-level statements that configure the buttons, with the two
    channel literals as arguments. *)
Definition initialize (pin_a pin_b : Z) : itree pyE unit :=
  GPIO_setmode BCM ;;
  GPIO_setup pin_a IN ;;
  GPIO_add_event_detect pin_a FALLING fn_shutdown 200 ;;
  GPIO_setup pin_b IN ;;
  GPIO_add_event_detect pin_b FALLING fn_reboot 200.

(** The literal .5 of time.sleep(.5), in seconds. *)
Definition sleep_interval : Q := 5 # 10.

(** while True: time.sleep(.5) *)
Definition main_loop : itree pyE void := ITree.forever (time_sleep sleep_interval).

Definition script (pin_a pin_b : Z) : itree pyE void :=
  initialize pin_a pin_b ;; main_loop.

(** The script as it is written: channels 23 and 24. *)
Definition main : itree pyE void := script 23 24.

(** ** The world the script runs in *)

(** What the script has done, in order. *)
Inductive action : Type :=
| APrint (s : string)
| ASystem (command : string)
| ASetmode (m : numbering)
| ASetup (channel : Z) (d : direction) (pull_up_down : pull)
| AAddEventDetect (channel : Z) (e : edge) (cb : callback) (bouncetime : Z)
| ASleep (secs : Q).

Definition label {X : Type} (c : pyE X) : action :=
  match c with
  | Print s => APrint s
  | OsSystem command => ASystem command
  | GpioSetmode m => ASetmode m
  | GpioSetup channel d p => ASetup channel d p
  | GpioAddEventDetect channel e cb bt => AAddEventDetect channel e cb bt
  | TimeSleep secs => ASleep secs
  end.

Definition commands (l : list action) : list string :=
  flat_map (fun a => match a with ASystem c => [c] | _ => [] end) l.

Definition notices (l : list action) : list string :=
  flat_map (fun a => match a with APrint s => [s] | _ => [] end) l.

Record registration : Type := mkRegistration {
  reg_channel : Z;
  reg_edge : edge;
  reg_callback : callback;
  reg_bouncetime : Z
}.

Record world : Type := mkWorld {
  w_mode : option numbering;
  w_setup : list (Z * direction * pull);
  w_detect : list registration;
  (* per channel, the time in milliseconds of the last callback invocation *)
  w_lastcall : list (Z * Z);
  w_log : list action
}.

(** A process that has just started. *)
Definition fresh : world := mkWorld None [] [] [] [].

Definition find_detect (channel : Z) (w : world) : option registration :=
  find (fun r => reg_channel r =? channel) (w_detect w).

Definition claimed (channel : Z) (w : world) : bool :=
  match find_detect channel w with Some _ => true | None => false end.

Fixpoint lookup (channel : Z) (l : list (Z * Z)) : option Z :=
  match l with
  | [] => None
  | (c, t) :: l' => if c =? channel then Some t else lookup channel l'
  end.

Definition logged (a : action) (w : world) : world :=
  mkWorld (w_mode w) (w_setup w) (w_detect w) (w_lastcall w) (w_log w ++ [a]).

Definition stamped (channel t : Z) (w : world) : world :=
  mkWorld (w_mode w) (w_setup w) (w_detect w) ((channel, t) :: w_lastcall w) (w_log w).

(** How a call ends: it returns a value, raises, or never returns. *)
Variant reply (X : Type) : Type :=
| Returns (x : X)
| Raises (e : exn)
| Never.
Arguments Returns {X} x.
Arguments Raises {X} e.
Arguments Never {X}.

(** How a run ends: the program returned, died of an uncaught exception, is
    held in a call that does not return, or is still running. *)
Variant outcome (R : Type) : Type :=
| Finished (r : R)
| Aborted (e : exn)
| Blocked
| Running.
Arguments Finished {R} r.
Arguments Aborted {R} e.
Arguments Blocked {R}.
Arguments Running {R}.

(** ** Button presses *)

(** An edge that the GPIO package sees on a channel. *)
Record edge_event : Type := mkEdge {
  ev_channel : Z;
  ev_transition : transition;
  ev_time : Z              (* milliseconds *)
}.

(** A call of a callback by the GPIO package. *)
Record invocation : Type := mkInvocation {
  inv_callback : callback;
  inv_channel : Z;
  inv_time : Z;
  inv_outcome : outcome unit
}.

Definition detects (e : edge) (tr : transition) : bool :=
  match e, tr with
  | FALLING, Fall => true
  | RISING, Rise => true
  | BOTH, _ => true
  | _, _ => false
  end.

Definition on_channel (channel : Z) (h : list edge_event) : list edge_event :=
  filter (fun ev => ev_channel ev =? channel) h.

(** No two invocations on one channel lie within [gap] milliseconds. *)
Fixpoint spaced (gap : Z) (l : list invocation) : bool :=
  match l with
  | [] => true
  | i :: l' =>
      forallb (fun j => negb (inv_channel j =? inv_channel i)
                        || (gap <? inv_time j - inv_time i)) l'
      && spaced gap l'
  end.

(** Steps that a callback of the script takes at most. *)
Definition callback_fuel : nat := 3.

(** The line that a callback prints and the command that it runs. *)
Definition notice_of (cb : callback) : string :=
  match cb with
  | fn_shutdown => "shutting down"
  | fn_reboot => "rebooting"
  end.

Definition command_of (cb : callback) : string :=
  match cb with
  | fn_shutdown => "sudo shutdown -h now"
  | fn_reboot => "sudo reboot"
  end.

Definition detect_calls (l : list action) : list (Z * callback) :=
  flat_map (fun a => match a with AAddEventDetect c _ cb _ => [(c, cb)] | _ => [] end) l.

Definition setups (l : list action) : list (Z * direction * pull) :=
  flat_map (fun a => match a with ASetup c d p => [(c, d, p)] | _ => [] end) l.

Definition modes (l : list action) : list numbering :=
  flat_map (fun a => match a with ASetmode m => [m] | _ => [] end) l.

(** The calls of [initialize pin_a pin_b], in the order of the script. *)
Definition init_actions (pin_a pin_b : Z) : list action :=
  [ASetmode BCM;
   ASetup pin_a IN PUD_OFF;
   AAddEventDetect pin_a FALLING fn_shutdown 200;
   ASetup pin_b IN PUD_OFF;
   AAddEventDetect pin_b FALLING fn_reboot 200].

(** The world that [initialize pin_a pin_b] leaves when every call succeeds. *)
Definition configured (pin_a pin_b : Z) (w : world) : world :=
  mkWorld (Some BCM)
          (w_setup w ++ [(pin_a, IN, PUD_OFF); (pin_b, IN, PUD_OFF)])
          (w_detect w ++ [mkRegistration pin_a FALLING fn_shutdown 200;
                          mkRegistration pin_b FALLING fn_reboot 200])
          (w_lastcall w)
          (w_log w ++ init_actions pin_a pin_b).

(** The world in which the script enters its loop. *)
Definition booted : world := configured 23 24 fresh.

(** The registrations are those that the script made. *)
Definition armed (w : world) : Prop := w_detect w = w_detect booted.

(** Two worlds in which channel [c] looks the same. *)
Definition agree (c : Z) (w1 w2 : world) : Prop :=
  w_detect w1 = w_detect w2 /\ lookup c (w_lastcall w1) = lookup c (w_lastcall w2).

(** The world after [n] more rounds of the loop. *)
Definition slept (n : nat) (w : world) : world :=
  mkWorld (w_mode w) (w_setup w) (w_detect w) (w_lastcall w)
          (w_log w ++ repeat (ASleep sleep_interval) n).

(** The channels of a 40-pin header under BCM numbering, and two operating
    systems: one on which every command completes with status 0, one on which
    no command completes. *)
Definition bcm_header (channel : Z) : bool := (0 <=? channel) && (channel <=? 27).
Definition os_ok (command : string) : option Z := Some 0.
Definition os_hangs (command : string) : option Z := None.

Section Platform.

(** The set of channels the board can address. *)
Variable valid_channel : Z -> bool.

(** The operating system: the exit status with which a command line
    completes, or None for a command that does not complete.  os.system
    returns that status once the command has completed. *)
Variable os : string -> option Z.

(** Modelled from the spec: the calls into RPi.GPIO and the Python runtime,
    which are not part of the repository.  GPIO.setup fails with
    ConfigurationError on a channel that is not valid; GPIO.add_event_detect
    fails with ConfigurationError on a channel that is not valid or that is
    claimed by another registration.  Every call is logged when it is made. *)
Definition handle {X : Type} (c : pyE X) (w : world) : world * reply X :=
  let w := logged (label c) w in
  match c in pyE X return world * reply X with
  | Print _ => (w, Returns tt)
  | OsSystem command =>
      match os command with
      | Some status => (w, Returns status)
      | None => (w, Never)
      end
  | GpioSetmode m =>
      (mkWorld (Some m) (w_setup w) (w_detect w) (w_lastcall w) (w_log w), Returns tt)
  | GpioSetup channel d p =>
      if valid_channel channel
      then (mkWorld (w_mode w) (w_setup w ++ [(channel, d, p)]) (w_detect w)
                    (w_lastcall w) (w_log w), Returns tt)
      else (w, Raises ConfigurationError)
  | GpioAddEventDetect channel e cb bt =>
      if valid_channel channel && negb (claimed channel w)
      then (mkWorld (w_mode w) (w_setup w)
                    (w_detect w ++ [mkRegistration channel e cb bt])
                    (w_lastcall w) (w_log w), Returns tt)
      else (w, Raises ConfigurationError)
  | TimeSleep _ => (w, Returns tt)
  end.

(** Running a program for at most [fuel] steps.  A step is one call or one
    silent step of the tree; an exception is not caught anywhere in the
    script, so the first one ends the run. *)
Fixpoint run {R : Type} (fuel : nat) (t : itree pyE R) (w : world) : world * outcome R :=
  match fuel with
  | O => (w, Running)
  | S fuel' =>
      match observe t with
      | RetF r => (w, Finished r)
      | TauF t' => run fuel' t' w
      | VisF c k =>
          match handle c w with
          | (w', Returns x) => run fuel' (k x) w'
          | (w', Raises e) => (w', Aborted e)
          | (w', Never) => (w', Blocked)
          end
      end
  end.

(** How a callback ends after os.system was called with [command]. *)
Definition after_command (command : string) : outcome unit :=
  match os command with
  | Some _ => Finished tt
  | None => Blocked
  end.

(** Modelled from the spec: the debounce filter of RPi.GPIO, which is not
    part of the repository.  An edge that comes within the registration's
    bouncetime of the last callback invocation on its channel is ignored. *)
Definition permitted (r : registration) (ev : edge_event) (w : world) : bool :=
  match lookup (ev_channel ev) (w_lastcall w) with
  | None => true
  | Some t0 => reg_bouncetime r <? ev_time ev - t0
  end.

(** Modelled from the spec: the event source of RPi.GPIO.  An edge on a
    channel with a registration for that transition, which the debounce
    filter lets through, invokes the registered callback with the channel. *)
Definition deliver (ev : edge_event) (w : world) : world * list invocation :=
  match find_detect (ev_channel ev) w with
  | Some r =>
      if detects (reg_edge r) (ev_transition ev) && permitted r ev w
      then
        let '(w', o) := run callback_fuel (body (reg_callback r) (ev_channel ev))
                            (stamped (ev_channel ev) (ev_time ev) w) in
        (w', [mkInvocation (reg_callback r) (ev_channel ev) (ev_time ev) o])
      else (w, [])
  | None => (w, [])
  end.

(** A history of edges, oldest first. *)
Fixpoint play (h : list edge_event) (w : world) : world * list invocation :=
  match h with
  | [] => (w, [])
  | ev :: h' =>
      let '(w1, i1) := deliver ev w in
      let '(w2, i2) := play h' w1 in
      (w2, i1 ++ i2)
  end.

(** * Properties *)

(** ** The callbacks *)

Lemma run_shutdown (pin : Z) (w : world) :
  run callback_fuel (shutdown pin) w =
  (logged (ASystem "sudo shutdown -h now") (logged (APrint "shutting down") w),
   after_command "sudo shutdown -h now").
Proof.
  unfold callback_fuel, after_command. cbn.
  destruct (os "sudo shutdown -h now"); reflexivity.
Qed.

Lemma run_reboot (pin : Z) (w : world) :
  run callback_fuel (reboot pin) w =
  (logged (ASystem "sudo reboot") (logged (APrint "rebooting") w),
   after_command "sudo reboot").
Proof.
  unfold callback_fuel, after_command. cbn.
  destruct (os "sudo reboot"); reflexivity.
Qed.

(** A callback touches nothing but the log. *)
Lemma run_body_frame (cb : callback) (pin : Z) (w : world) :
  let w' := fst (run callback_fuel (body cb pin) w) in
  w_mode w' = w_mode w /\ w_setup w' = w_setup w /\
  w_detect w' = w_detect w /\ w_lastcall w' = w_lastcall w.
Proof.
  destruct cb; cbn [body]; [rewrite run_shutdown | rewrite run_reboot];
    cbn; auto.
Qed.

(** More fuel does not change a run that has ended. *)
Lemma run_more {R : Type} (n k : nat) (t : itree pyE R) (w w' : world) (o : outcome R) :
  run n t w = (w', o) ->
  o <> Running ->
  run (n + k) t w = (w', o).
Proof.
  revert t w. induction n as [|n IH]; intros t w H Ho.
  - cbn in H. inversion H; subst. contradiction.
  - cbn in H |- *. destruct (observe t) as [r | t' | X c kk].
    + exact H.
    + apply IH; assumption.
    + destruct (handle c w) as [w1 [x | e |]].
      * apply IH; assumption.
      * exact H.
      * exact H.
Qed.

Lemma run_subst_ret {R S : Type} (x : R) (k : R -> itree pyE S) (n : nat) (w : world) :
  run n (ITree.subst k (Ret x)) w = run n (k x) w.
Proof. destruct n; reflexivity. Qed.

(** ** Initialization *)

Lemma find_snoc {A : Type} (f : A -> bool) (l : list A) (x : A) :
  find f l = None -> find f (l ++ [x]) = if f x then Some x else None.
Proof.
  induction l as [|y l IH]; cbn; intros H; [reflexivity|].
  destruct (f y); [discriminate | auto].
Qed.

Lemma find_app_some {A : Type} (f : A -> bool) (l l' : list A) (x : A) :
  find f l = Some x -> find f (l ++ l') = Some x.
Proof.
  induction l as [|y l IH]; cbn; intros H; [discriminate|].
  destruct (f y); auto.
Qed.


Lemma unclaimed_find (c : Z) (w : world) :
  claimed c w = false -> find (fun r => reg_channel r =? c) (w_detect w) = None.
Proof.
  unfold claimed, find_detect. destruct (find _ _); [discriminate | reflexivity].
Qed.


(* Runs the calls at the head of the program, using what is known of the
   platform. *)
Ltac run_calls :=
  unfold claimed, find_detect; cbn;
  repeat match goal with
         | H : valid_channel ?c = _ |- context [valid_channel ?c] =>
             rewrite H; unfold claimed, find_detect; cbn
         | H : find ?f ?l = _ |- context [find ?f ?l] =>
             rewrite H; unfold claimed, find_detect; cbn
         end.

Lemma run_initialize_ok (pin_a pin_b : Z) (w : world) :
  valid_channel pin_a = true -> valid_channel pin_b = true ->
  claimed pin_a w = false -> claimed pin_b w = false -> pin_a <> pin_b ->
  run 6 (initialize pin_a pin_b) w = (configured pin_a pin_b w, Finished tt).
Proof.
  intros Va Vb Ca Cb Hab.
  apply unclaimed_find in Ca, Cb. apply Z.eqb_neq in Hab.
  run_calls. rewrite (find_snoc _ _ _ Cb). cbn. rewrite Hab. cbn.
  unfold configured, init_actions. rewrite <- !app_assoc. reflexivity.
Qed.

Lemma run_script_boot (pin_a pin_b : Z) (w : world) (m : nat) :
  valid_channel pin_a = true -> valid_channel pin_b = true ->
  claimed pin_a w = false -> claimed pin_b w = false -> pin_a <> pin_b ->
  run (5 + m) (script pin_a pin_b) w = run m main_loop (configured pin_a pin_b w).
Proof.
  intros Va Vb Ca Cb Hab.
  apply unclaimed_find in Ca, Cb. apply Z.eqb_neq in Hab.
  run_calls. rewrite (find_snoc _ _ _ Cb). cbn. rewrite Hab. cbn.
  unfold configured, init_actions. rewrite <- !app_assoc.
  destruct m; reflexivity.
Qed.



(** ** The loop *)

Lemma run_main_loop_step (m : nat) (w : world) :
  run (S (S m)) main_loop w = run m main_loop (logged (ASleep sleep_interval) w).
Proof. reflexivity. Qed.

Lemma slept_succ (n : nat) (w : world) :
  slept n (logged (ASleep sleep_interval) w) = slept (S n) w.
Proof. unfold slept, logged. cbn. rewrite <- app_assoc. reflexivity. Qed.

Lemma slept_zero (w : world) : slept 0 w = w.
Proof. destruct w. unfold slept. cbn. rewrite app_nil_r. reflexivity. Qed.

Lemma run_main_loop_any (fuel : nat) :
  forall w, run fuel main_loop w = (slept (Nat.div2 (S fuel)) w, Running).
Proof.
  induction fuel as [fuel IH] using (well_founded_induction Wf_nat.lt_wf). intros w.
  destruct fuel as [|[|m]].
  - cbn. rewrite slept_zero. reflexivity.
  - cbn. rewrite <- slept_succ, slept_zero. reflexivity.
  - rewrite run_main_loop_step, IH by lia.
    rewrite slept_succ. reflexivity.
Qed.

Lemma run_main_loop (n : nat) (w : world) :
  run (n + n) main_loop w = (slept n w, Running).
Proof.
  rewrite run_main_loop_any. f_equal. f_equal.
  replace (S (n + n)) with (S (2 * n)) by lia. apply Nat.div2_succ_double.
Qed.

Lemma commands_app (l l' : list action) : commands (l ++ l') = commands l ++ commands l'.
Proof. apply flat_map_app. Qed.

Lemma notices_app (l l' : list action) : notices (l ++ l') = notices l ++ notices l'.
Proof. apply flat_map_app. Qed.

Lemma commands_sleeps (n : nat) : commands (repeat (ASleep sleep_interval) n) = [].
Proof. induction n; cbn; auto. Qed.

Lemma notices_sleeps (n : nat) : notices (repeat (ASleep sleep_interval) n) = [].
Proof. induction n; cbn; auto. Qed.

(** Whatever the platform answers, the script makes its calls in the order
    in which they are written. *)
Lemma script_trace (fuel : nat) (pin_a pin_b : Z) (w : world) :
  exists k j,
    w_log (fst (run fuel (script pin_a pin_b) w)) =
    w_log w ++ firstn k (init_actions pin_a pin_b) ++ repeat (ASleep sleep_interval) j.
Proof.
  assert (L : forall m w', w_log w' = w_log w ++ init_actions pin_a pin_b ->
            exists k j, w_log (fst (run m main_loop w')) =
              w_log w ++ firstn k (init_actions pin_a pin_b)
                    ++ repeat (ASleep sleep_interval) j).
  { intros m w' E. rewrite run_main_loop_any. cbn. exists 5%nat, (Nat.div2 (S m)).
    rewrite E, <- app_assoc. reflexivity. }
  destruct fuel as [|[|[|[|[|m]]]]]; cbn;
    repeat (match goal with |- context [if ?c then _ else _] => destruct c end; cbn);
    try (rewrite run_subst_ret; apply L; cbn; unfold init_actions;
         rewrite <- !app_assoc; reflexivity);
    first [ exists 0%nat, 0%nat; cbn; rewrite <- ?app_assoc, ?app_nil_r; reflexivity
          | exists 1%nat, 0%nat; cbn; rewrite <- ?app_assoc, ?app_nil_r; reflexivity
          | exists 2%nat, 0%nat; cbn; rewrite <- ?app_assoc, ?app_nil_r; reflexivity
          | exists 3%nat, 0%nat; cbn; rewrite <- ?app_assoc, ?app_nil_r; reflexivity
          | exists 4%nat, 0%nat; cbn; rewrite <- ?app_assoc, ?app_nil_r; reflexivity
          | exists 5%nat, 0%nat; cbn; rewrite <- ?app_assoc, ?app_nil_r; reflexivity ].
Qed.

(** ** Edges *)

Lemma armed_find (w : world) (c : Z) (r : registration) :
  armed w -> find_detect c w = Some r ->
  (c = 23 /\ r = mkRegistration 23 FALLING fn_shutdown 200) \/
  (c = 24 /\ r = mkRegistration 24 FALLING fn_reboot 200).
Proof.
  unfold armed, find_detect. intros ->. cbn -[Z.eqb].
  destruct (23 =? c) eqn:E23; [apply Z.eqb_eq in E23; intros H; left; split; congruence|].
  destruct (24 =? c) eqn:E24; [apply Z.eqb_eq in E24; intros H; right; split; congruence|].
  intros H; discriminate H.
Qed.

Lemma armed_shutdown (w : world) :
  armed w -> find_detect 23 w = Some (mkRegistration 23 FALLING fn_shutdown 200).
Proof. unfold armed, find_detect. intros ->. reflexivity. Qed.

Lemma armed_reboot (w : world) :
  armed w -> find_detect 24 w = Some (mkRegistration 24 FALLING fn_reboot 200).
Proof. unfold armed, find_detect. intros ->. reflexivity. Qed.

Lemma run_body (cb : callback) (pin : Z) (w : world) :
  run callback_fuel (body cb pin) w =
  (logged (ASystem (command_of cb)) (logged (APrint (notice_of cb)) w),
   after_command (command_of cb)).
Proof. destruct cb; [apply run_shutdown | apply run_reboot]. Qed.

(** What an edge does: nothing, or one invocation that stamps the channel,
    adds two calls to the log and leaves the registrations alone. *)
Lemma deliver_cases (ev : edge_event) (w : world) :
  deliver ev w = (w, []) \/
  exists r w',
    find_detect (ev_channel ev) w = Some r /\
    detects (reg_edge r) (ev_transition ev) = true /\
    permitted r ev w = true /\
    w_log w' = w_log w ++ [APrint (notice_of (reg_callback r));
                           ASystem (command_of (reg_callback r))] /\
    deliver ev w =
      (w', [mkInvocation (reg_callback r) (ev_channel ev) (ev_time ev)
              (after_command (command_of (reg_callback r)))]) /\
    w_detect w' = w_detect w /\
    w_lastcall w' = (ev_channel ev, ev_time ev) :: w_lastcall w.
Proof.
  unfold deliver. destruct (find_detect (ev_channel ev) w) as [r|] eqn:F; [|left; reflexivity].
  destruct (detects (reg_edge r) (ev_transition ev)) eqn:D; [|left; reflexivity].
  destruct (permitted r ev w) eqn:P; [|left; reflexivity].
  right. cbn [andb]. exists r. rewrite run_body.
  eexists; repeat split; try assumption.
  cbn. rewrite <- app_assoc. reflexivity.
Qed.

Lemma deliver_detect (ev : edge_event) (w : world) :
  w_detect (fst (deliver ev w)) = w_detect w.
Proof.
  destruct (deliver_cases ev w) as [E | (r & w' & _ & _ & _ & _ & E & D & _)];
    rewrite E; [reflexivity | exact D].
Qed.

Lemma play_cons_fst (ev : edge_event) (h : list edge_event) (w : world) :
  fst (play (ev :: h) w) = fst (play h (fst (deliver ev w))).
Proof.
  cbn [play]. destruct (deliver ev w) as [w1 i1]. cbn [fst].
  destruct (play h w1). reflexivity.
Qed.

Lemma play_cons_snd (ev : edge_event) (h : list edge_event) (w : world) :
  snd (play (ev :: h) w) = snd (deliver ev w) ++ snd (play h (fst (deliver ev w))).
Proof.
  cbn [play]. destruct (deliver ev w) as [w1 i1]. cbn [fst snd].
  destruct (play h w1). reflexivity.
Qed.

Lemma play_detect (h : list edge_event) :
  forall w, w_detect (fst (play h w)) = w_detect w.
Proof.
  induction h as [|ev h IH]; intros w; [reflexivity|].
  rewrite play_cons_fst, IH. apply deliver_detect.
Qed.

Lemma play_armed (h : list edge_event) (w : world) : armed w -> armed (fst (play h w)).
Proof. unfold armed. rewrite play_detect. auto. Qed.

Lemma booted_armed : armed booted.
Proof. reflexivity. Qed.

(** An edge on one channel leaves the stamp of every other channel alone. *)
Lemma deliver_other (c : Z) (ev : edge_event) (w : world) :
  ev_channel ev <> c ->
  lookup c (w_lastcall (fst (deliver ev w))) = lookup c (w_lastcall w).
Proof.
  intros N.
  destruct (deliver_cases ev w) as [E | (r & w' & _ & _ & _ & _ & E & _ & L)];
    rewrite E; [reflexivity|]. cbn [fst]. rewrite L. cbn.
  apply Z.eqb_neq in N. rewrite N. reflexivity.
Qed.

Lemma agree_permitted (r : registration) (ev : edge_event) (w1 w2 : world) :
  agree (ev_channel ev) w1 w2 -> permitted r ev w1 = permitted r ev w2.
Proof. intros [_ L]. unfold permitted. rewrite L. reflexivity. Qed.

Lemma agree_find (c : Z) (w1 w2 : world) :
  agree c w1 w2 -> find_detect c w1 = find_detect c w2.
Proof. intros [D _]. unfold find_detect. rewrite D. reflexivity. Qed.

Lemma deliver_agree (ev : edge_event) (w1 w2 : world) :
  agree (ev_channel ev) w1 w2 ->
  agree (ev_channel ev) (fst (deliver ev w1)) (fst (deliver ev w2)) /\
  snd (deliver ev w1) = snd (deliver ev w2).
Proof.
  intros A. pose proof (deliver_detect ev w1) as D1. pose proof (deliver_detect ev w2) as D2.
  unfold agree. rewrite D1, D2. split; [split; [apply A|]|].
  - clear D1 D2. unfold deliver. rewrite (agree_find _ _ _ A).
    destruct (find_detect (ev_channel ev) w2) as [r|]; [|apply A].
    rewrite (agree_permitted r ev _ _ A).
    destruct (detects _ _ && permitted r ev w2); [|apply A].
    rewrite !run_body. cbn. rewrite Z.eqb_refl. reflexivity.
  - clear D1 D2. unfold deliver. rewrite (agree_find _ _ _ A).
    destruct (find_detect (ev_channel ev) w2) as [r|]; [|reflexivity].
    rewrite (agree_permitted r ev _ _ A).
    destruct (detects _ _ && permitted r ev w2); [|reflexivity].
    rewrite !run_body. reflexivity.
Qed.

(** What a channel looks like after a history depends on the edges of that
    channel only. *)
Lemma play_on_channel (c : Z) (h : list edge_event) :
  forall w1 w2, agree c w1 w2 ->
    agree c (fst (play h w1)) (fst (play (on_channel c h) w2)).
Proof.
  induction h as [|ev h IH]; intros w1 w2 A; [exact A|].
  rewrite play_cons_fst. unfold on_channel. cbn [filter]. fold (on_channel c h).
  destruct (ev_channel ev =? c) eqn:E.
  - apply Z.eqb_eq in E. subst c. rewrite play_cons_fst.
    apply IH. apply deliver_agree. exact A.
  - apply Z.eqb_neq in E. apply IH. destruct A as [D L]. split.
    + rewrite deliver_detect. exact D.
    + rewrite deliver_other by exact E. exact L.
Qed.

(** ** Debounce *)

Lemma deliver_at_most_one (ev : edge_event) (w : world) :
  (List.length (snd (deliver ev w)) <= 1)%nat.
Proof.
  destruct (deliver_cases ev w) as [E | (r & w' & _ & _ & _ & _ & E & _)];
    rewrite E; cbn; lia.
Qed.

(** After an invocation at [t], an edge on the same channel that comes no
    more than 200 ms later is ignored. *)
Lemma deliver_bounce (ev : edge_event) (w : world) (t : Z) :
  armed w ->
  lookup (ev_channel ev) (w_lastcall w) = Some t ->
  ev_time ev - t <= 200 ->
  deliver ev w = (w, []).
Proof.
  intros A L B.
  destruct (deliver_cases ev w) as [E | (r & w' & F & _ & P & _)]; [exact E|].
  exfalso. unfold permitted in P. rewrite L in P.
  destruct (armed_find _ _ _ A F) as [[_ ->] | [_ ->]]; cbn in P;
    apply Z.ltb_lt in P; lia.
Qed.

(** Invocations on one channel are more than 200 ms apart, and more than
    200 ms after the stamp that the channel had before. *)
Lemma play_spaced (h : list edge_event) :
  forall w, armed w ->
    spaced 200 (snd (play h w)) = true /\
    forall j t0, In j (snd (play h w)) ->
      lookup (inv_channel j) (w_lastcall w) = Some t0 -> 200 < inv_time j - t0.
Proof.
  induction h as [|ev h IH]; intros w A; [split; [reflexivity | intros j t0 []]|].
  rewrite play_cons_snd.
  destruct (deliver_cases ev w) as [E | (r & w' & F & _ & P & _ & E & D & L)]; rewrite E.
  - exact (IH w A).
  - cbn [fst snd app].
    assert (A' : armed w') by (unfold armed in *; congruence).
    destruct (IH w' A') as [S1 S2].
    assert (B : reg_bouncetime r = 200)
      by (destruct (armed_find _ _ _ A F) as [[_ ->] | [_ ->]]; reflexivity).
    assert (G : forall j, In j (snd (play h w')) -> inv_channel j = ev_channel ev ->
                200 < inv_time j - ev_time ev).
    { intros j Hj Hc. apply (S2 j (ev_time ev) Hj).
      rewrite L, Hc. cbn. rewrite Z.eqb_refl. reflexivity. }
    split.
    + cbn [spaced inv_channel inv_time]. rewrite S1, andb_true_r.
      apply forallb_forall. intros j Hj.
      destruct (inv_channel j =? ev_channel ev) eqn:Ej; [|reflexivity].
      apply Z.eqb_eq in Ej. cbn. apply Z.ltb_lt. auto.
    + intros j t0 [<- | Hj] Lj.
      * cbn [inv_channel inv_time] in *. unfold permitted in P. rewrite Lj, B in P.
        apply Z.ltb_lt in P. exact P.
      * destruct (Z.eq_dec (inv_channel j) (ev_channel ev)) as [Hc | Hc].
        -- specialize (G j Hj Hc). rewrite Hc in Lj.
           unfold permitted in P. rewrite Lj, B in P. apply Z.ltb_lt in P. lia.
        -- apply (S2 j t0 Hj). rewrite L. cbn.
           destruct (ev_channel ev =? inv_channel j) eqn:Ej; [|exact Lj].
           apply Z.eqb_eq in Ej. congruence.
Qed.

(** Of two edges on a channel of the script that are no more than 200 ms
    apart, the second is ignored when the first invokes the callback. *)
Lemma pair_at_most_one (w : world) (c t1 t2 : Z) :
  armed w -> Z.abs (t2 - t1) <= 200 ->
  (List.length (snd (play [mkEdge c Fall t1; mkEdge c Fall t2] w)) <= 1)%nat /\
  (snd (deliver (mkEdge c Fall t1) w) <> [] ->
   List.length (snd (play [mkEdge c Fall t1; mkEdge c Fall t2] w)) = 1%nat).
Proof.
  intros A B. rewrite play_cons_snd, play_cons_snd. cbn [play snd]. rewrite app_nil_r.
  destruct (deliver_cases (mkEdge c Fall t1) w) as [E | (r & w' & F & _ & P & _ & E & D & L)];
    rewrite E; cbn [fst snd].
  - split; [apply deliver_at_most_one | intros N; contradiction].
  - assert (A' : armed w') by (unfold armed in *; congruence).
    rewrite (deliver_bounce (mkEdge c Fall t2) w' t1 A').
    + cbn. split; [lia | reflexivity].
    + rewrite L. cbn. rewrite Z.eqb_refl. reflexivity.
    + cbn. lia.
Qed.

(** The first edge on a channel of the script invokes its callback. *)
Lemma first_edge_fires (w : world) (c t : Z) :
  armed w -> c = 23 \/ c = 24 ->
  lookup c (w_lastcall w) = None ->
  snd (deliver (mkEdge c Fall t) w) <> [].
Proof.
  intros A Hc L. unfold deliver. cbn [ev_channel ev_transition ev_time].
  destruct Hc as [-> | ->];
    [rewrite (armed_shutdown _ A) | rewrite (armed_reboot _ A)];
    unfold permitted; cbn [ev_channel]; rewrite L; cbn [detects reg_edge andb];
    rewrite run_body; discriminate.
Qed.

(** ** What the platform can make the script do *)

Lemma play_invocations (h : list edge_event) :
  forall w, armed w ->
    Forall (fun i => (inv_callback i = fn_shutdown /\ inv_channel i = 23) \/
                     (inv_callback i = fn_reboot /\ inv_channel i = 24))
           (snd (play h w)).
Proof.
  induction h as [|ev h IH]; intros w A; [constructor|].
  rewrite play_cons_snd.
  destruct (deliver_cases ev w) as [E | (r & w' & F & _ & _ & _ & E & D & _)]; rewrite E.
  - exact (IH w A).
  - cbn [fst snd app]. constructor.
    + cbn. destruct (armed_find _ _ _ A F) as [[-> ->] | [-> ->]]; cbn; auto.
    + apply IH. unfold armed in *. congruence.
Qed.


Lemma deliver_fires (ev : edge_event) (w : world) (r : registration) :
  find_detect (ev_channel ev) w = Some r ->
  detects (reg_edge r) (ev_transition ev) = true ->
  permitted r ev w = true ->
  deliver ev w =
  (logged (ASystem (command_of (reg_callback r)))
     (logged (APrint (notice_of (reg_callback r)))
        (stamped (ev_channel ev) (ev_time ev) w)),
   [mkInvocation (reg_callback r) (ev_channel ev) (ev_time ev)
      (after_command (command_of (reg_callback r)))]).
Proof.
  intros F D P. unfold deliver. rewrite F, D, P. cbn [andb]. rewrite run_body. reflexivity.
Qed.

Lemma flat_map_sleeps {B : Type} (f : action -> list B) (n : nat) :
  f (ASleep sleep_interval) = [] -> flat_map f (repeat (ASleep sleep_interval) n) = [].
Proof. intros E. induction n; cbn; [reflexivity|]. rewrite E, IHn. reflexivity. Qed.

Lemma Forall_flat_map_firstn {A B : Type} (P : B -> Prop) (f : A -> list B) (l : list A) :
  Forall P (flat_map f l) -> forall k, Forall P (flat_map f (firstn k l)).
Proof.
  induction l as [|a l IH]; intros H k.
  - rewrite firstn_nil. constructor.
  - destruct k; cbn; [constructor|].
    cbn in H. apply Forall_app in H. destruct H as [Ha Hl].
    apply Forall_app. split; [exact Ha | apply IH; exact Hl].
Qed.

(** What of a given kind the script has called: the calls of that kind among
    the first calls of the initialization. *)
Lemma script_calls {B : Type} (f : action -> list B) (P : B -> Prop)
      (fuel : nat) (pin_a pin_b : Z) :
  f (ASleep sleep_interval) = [] ->
  Forall P (flat_map f (init_actions pin_a pin_b)) ->
  Forall P (flat_map f (w_log (fst (run fuel (script pin_a pin_b) fresh)))).
Proof.
  intros Hs Hi. destruct (script_trace fuel pin_a pin_b fresh) as (k & j & E).
  rewrite E. cbn [w_log fresh app]. rewrite flat_map_app, (flat_map_sleeps f j Hs), app_nil_r.
  apply Forall_flat_map_firstn. exact Hi.
Qed.

(** * The claims *)

(** C1, amended.  After any history of edges, a falling edge on the
    shutdown channel that the debounce filter lets through invokes the
    shutdown callback once; the callback prints "shutting down" once and then
    calls os.system once with the shutdown command, in that order, and makes
    no other call.  The callback returns when the command has completed,
    with whatever status, and is held in os.system as long as the command
    has not. *)
Theorem shutdown_edge_effect (h : list edge_event) (t : Z) :
  permitted (mkRegistration 23 FALLING fn_shutdown 200) (mkEdge 23 Fall t)
            (fst (play h booted)) = true ->
  exists w',
    deliver (mkEdge 23 Fall t) (fst (play h booted)) =
      (w', [mkInvocation fn_shutdown 23 t (after_command "sudo shutdown -h now")]) /\
    w_log w' = w_log (fst (play h booted))
               ++ [APrint "shutting down"; ASystem "sudo shutdown -h now"] /\
    after_command "sudo shutdown -h now" =
      match os "sudo shutdown -h now" with
      | Some _ => Finished tt
      | None => Blocked
      end.
Proof.
  intros P.
  pose proof (armed_shutdown _ (play_armed h booted booted_armed)) as F.
  eexists. split; [|split].
  - exact (deliver_fires (mkEdge 23 Fall t) _ _ F eq_refl P).
  - cbn. rewrite <- app_assoc. reflexivity.
  - reflexivity.
Qed.

(** C2.  After any history of edges, a falling edge on the reboot channel
    that the debounce filter lets through invokes the reboot callback once;
    the callback prints "rebooting" once and calls os.system once with the
    reboot command.  The same happens after every other history [h'] with the
    same edges on the reboot channel, whatever happened on the shutdown
    channel. *)
Theorem reboot_edge_effect (h h' : list edge_event) (t : Z) :
  permitted (mkRegistration 24 FALLING fn_reboot 200) (mkEdge 24 Fall t)
            (fst (play h booted)) = true ->
  on_channel 24 h' = on_channel 24 h ->
  exists w1 w2,
    deliver (mkEdge 24 Fall t) (fst (play h booted)) =
      (w1, [mkInvocation fn_reboot 24 t (after_command "sudo reboot")]) /\
    w_log w1 = w_log (fst (play h booted)) ++ [APrint "rebooting"; ASystem "sudo reboot"] /\
    deliver (mkEdge 24 Fall t) (fst (play h' booted)) =
      (w2, [mkInvocation fn_reboot 24 t (after_command "sudo reboot")]) /\
    w_log w2 = w_log (fst (play h' booted)) ++ [APrint "rebooting"; ASystem "sudo reboot"].
Proof.
  intros P E.
  pose proof (armed_reboot _ (play_armed h booted booted_armed)) as F.
  pose proof (armed_reboot _ (play_armed h' booted booted_armed)) as F'.
  assert (A : agree 24 (fst (play h' booted)) (fst (play h booted))).
  { destruct (play_on_channel 24 h booted booted (conj eq_refl eq_refl)) as [D1 L1].
    destruct (play_on_channel 24 h' booted booted (conj eq_refl eq_refl)) as [D2 L2].
    rewrite E in D2, L2. split; congruence. }
  assert (P' : permitted (mkRegistration 24 FALLING fn_reboot 200) (mkEdge 24 Fall t)
                         (fst (play h' booted)) = true).
  { rewrite <- P. apply agree_permitted. exact A. }
  do 2 eexists. split; [|split; [|split]].
  - exact (deliver_fires (mkEdge 24 Fall t) _ _ F eq_refl P).
  - cbn. rewrite <- app_assoc. reflexivity.
  - exact (deliver_fires (mkEdge 24 Fall t) _ _ F' eq_refl P').
  - cbn. rewrite <- app_assoc. reflexivity.
Qed.

(** C3, amended.  Both registrations of the script carry a bouncetime of
    200 ms.  Of two falling edges on one of the two channels that are no more
    than 200 ms apart, at most one invokes the callback; exactly one does
    when the first of them invokes it, as it does when no edge came on that
    channel before.  In every history, two invocations on one channel are
    more than 200 ms apart. *)
Theorem debounce_window (h : list edge_event) (c t1 t2 : Z) :
  c = 23 \/ c = 24 ->
  Z.abs (t2 - t1) <= 200 ->
  (exists cb, find_detect c (fst (play h booted)) = Some (mkRegistration c FALLING cb 200)) /\
  (List.length (snd (play [mkEdge c Fall t1; mkEdge c Fall t2] (fst (play h booted)))) <= 1)%nat /\
  (snd (deliver (mkEdge c Fall t1) (fst (play h booted))) <> [] ->
   List.length (snd (play [mkEdge c Fall t1; mkEdge c Fall t2] (fst (play h booted)))) = 1%nat) /\
  (on_channel c h = [] ->
   List.length (snd (play [mkEdge c Fall t1; mkEdge c Fall t2] (fst (play h booted)))) = 1%nat) /\
  spaced 200 (snd (play (h ++ [mkEdge c Fall t1; mkEdge c Fall t2]) booted)) = true.
Proof.
  intros Hc B.
  pose proof (play_armed h booted booted_armed) as A.
  destruct (pair_at_most_one _ c t1 t2 A B) as [M O].
  split; [|split; [exact M | split; [exact O | split]]].
  - destruct Hc as [-> | ->]; eexists;
      [apply (armed_shutdown _ A) | apply (armed_reboot _ A)].
  - intros E. apply O. apply first_edge_fires; [exact A | exact Hc |].
    destruct (play_on_channel c h booted booted (conj eq_refl eq_refl)) as [_ L].
    rewrite E in L. exact L.
  - apply (play_spaced _ booted booted_armed).
Qed.


(** C5.  Once both registrations are made the script is in its loop: after
    the five calls of the initialization, [N] rounds of the loop make [N]
    calls of time.sleep, each of half a second, and no other call, so that no
    command has been run; and however long the loop is run, in whatever
    world, it is still running. *)
Theorem main_loop_only_sleeps (N : nat) :
  valid_channel 23 = true -> valid_channel 24 = true ->
  run (5 + (N + N)) main fresh = (slept N booted, Running) /\
  w_log (slept N booted) = w_log booted ++ repeat (ASleep sleep_interval) N /\
  commands (w_log (slept N booted)) = [] /\
  notices (w_log (slept N booted)) = [] /\
  (sleep_interval * 1000 == 500)%Q /\
  (forall fuel w, run fuel main_loop w = (slept (Nat.div2 (S fuel)) w, Running)) /\
  (forall w, run (N + N) main_loop w = (slept N w, Running) /\
             commands (w_log (slept N w)) = commands (w_log w)).
Proof.
  intros V23 V24. repeat split.
  - unfold main, booted.
    rewrite (run_script_boot 23 24 fresh (N + N) V23 V24 eq_refl eq_refl) by discriminate.
    apply run_main_loop.
  - cbn [slept w_log]. rewrite commands_app, commands_sleeps. reflexivity.
  - cbn [slept w_log]. rewrite notices_app, notices_sleeps. reflexivity.
  - intros fuel w. apply run_main_loop_any.
  - apply run_main_loop.
  - cbn [slept w_log]. rewrite commands_app, commands_sleeps, app_nil_r. reflexivity.
Qed.

(** C6.  For two valid, distinct channels that no registration claims, the
    initialization returns; it has added two registrations, the shutdown
    callback on the first channel and the reboot callback on the second, both
    for falling edges, and has called GPIO.add_event_detect twice, once for
    each.  More fuel changes nothing. *)
Theorem initialize_registers_both (pin_a pin_b : Z) (w : world) (k : nat) :
  valid_channel pin_a = true -> valid_channel pin_b = true ->
  claimed pin_a w = false -> claimed pin_b w = false ->
  pin_a <> pin_b ->
  exists w',
    run (6 + k) (initialize pin_a pin_b) w = (w', Finished tt) /\
    w_detect w' = w_detect w ++ [mkRegistration pin_a FALLING fn_shutdown 200;
                                 mkRegistration pin_b FALLING fn_reboot 200] /\
    detect_calls (w_log w') =
      detect_calls (w_log w) ++ [(pin_a, fn_shutdown); (pin_b, fn_reboot)] /\
    find_detect pin_a w' = Some (mkRegistration pin_a FALLING fn_shutdown 200) /\
    find_detect pin_b w' = Some (mkRegistration pin_b FALLING fn_reboot 200).
Proof.
  intros Va Vb Ca Cb Hab. exists (configured pin_a pin_b w).
  split; [|split; [|split; [|split]]].
  - apply run_more; [|discriminate]. apply run_initialize_ok; assumption.
  - reflexivity.
  - unfold configured, detect_calls. cbn [w_log]. rewrite flat_map_app. reflexivity.
  - apply unclaimed_find in Ca. unfold find_detect, configured. cbn [w_detect].
    change [mkRegistration pin_a FALLING fn_shutdown 200;
            mkRegistration pin_b FALLING fn_reboot 200]
      with ([mkRegistration pin_a FALLING fn_shutdown 200]
              ++ [mkRegistration pin_b FALLING fn_reboot 200]).
    rewrite app_assoc. apply find_app_some. rewrite (find_snoc _ _ _ Ca).
    cbn [reg_channel]. rewrite Z.eqb_refl. reflexivity.
  - apply unclaimed_find in Cb. unfold find_detect, configured. cbn [w_detect].
    change [mkRegistration pin_a FALLING fn_shutdown 200;
            mkRegistration pin_b FALLING fn_reboot 200]
      with ([mkRegistration pin_a FALLING fn_shutdown 200]
              ++ [mkRegistration pin_b FALLING fn_reboot 200]).
    rewrite app_assoc. rewrite find_snoc.
    + cbn [reg_channel]. rewrite Z.eqb_refl. reflexivity.
    + rewrite (find_snoc _ _ _ Cb). cbn [reg_channel].
      apply Z.eqb_neq in Hab. rewrite Hab. reflexivity.
Qed.

(** C8.  However far the script gets, on whatever platform, every call of
    GPIO.setmode that it has made selects BCM, the logical numbering, and
    every call of GPIO.setup that it has made asks for an input with the
    pull resistors off.  When the initialization succeeds it has made one
    such call for each channel, and no other. *)
Theorem pins_are_plain_inputs (pin_a pin_b : Z) (fuel : nat) :
  logical BCM = true /\
  Forall (fun m => m = BCM) (modes (w_log (fst (run fuel (script pin_a pin_b) fresh)))) /\
  Forall (fun s => snd (fst s) = IN /\ snd s = PUD_OFF)
         (setups (w_log (fst (run fuel (script pin_a pin_b) fresh)))) /\
  (valid_channel pin_a = true -> valid_channel pin_b = true -> pin_a <> pin_b ->
   exists w',
     run 6 (initialize pin_a pin_b) fresh = (w', Finished tt) /\
     w_mode w' = Some BCM /\
     modes (w_log w') = [BCM] /\
     w_setup w' = [(pin_a, IN, PUD_OFF); (pin_b, IN, PUD_OFF)] /\
     setups (w_log w') = [(pin_a, IN, PUD_OFF); (pin_b, IN, PUD_OFF)]).
Proof.
  split; [reflexivity|]. split; [|split].
  - apply script_calls; [reflexivity|]. cbn. repeat constructor.
  - apply script_calls; [reflexivity|]. cbn. repeat constructor.
  - intros Va Vb Hab. exists (configured pin_a pin_b fresh). split.
    + apply run_initialize_ok; auto.
    + repeat split.
Qed.

(** C9.  A callback does not look at its argument: for two channels it is
    the same program, runs in the same way in every world, and an edge hands
    over to it what it would with any other argument. *)
Theorem callbacks_ignore_pin (cb : callback) (p p' : Z) (fuel : nat) (w : world) :
  shutdown p = shutdown p' /\
  reboot p = reboot p' /\
  body cb p = body cb p' /\
  run fuel (shutdown p) w = run fuel (shutdown p') w /\
  run fuel (reboot p) w = run fuel (reboot p') w /\
  run callback_fuel (body cb p) w =
    (logged (ASystem (command_of cb)) (logged (APrint (notice_of cb)) w),
     after_command (command_of cb)).
Proof.
  repeat split.
  - destruct cb; reflexivity.
  - apply run_body.
Qed.


(** * Further properties of the script *)

Lemma sleeps_only (j : nat) (l q : list action) (y : action) :
  repeat (ASleep sleep_interval) j = l ++ y :: q -> y = ASleep sleep_interval.
Proof.
  intros E. apply (repeat_spec j (ASleep sleep_interval) y).
  rewrite E. apply in_or_app. right. left. reflexivity.
Qed.

(* Walks down an equation between a log that is written out and a log split
   around one call. *)
Ltac split_log H :=
  lazymatch type of H with
  | repeat _ _ = _ ++ _ :: _ => apply sleeps_only in H; discriminate H
  | _ :: _ = ?l ++ _ :: _ =>
      destruct l as [|? l]; cbn in H;
      [ first [ discriminate H | injection H as ? ?; subst ]
      | injection H as ? H; subst; split_log H ]
  end.

(** X1.  On every platform and however far the script gets, a call of
    GPIO.add_event_detect for a channel comes after GPIO.setmode(GPIO.BCM)
    and after the GPIO.setup of that channel as an input. *)
Theorem setup_precedes_detect (fuel : nat) (pin_a pin_b : Z) (w : world)
        (l1 l2 : list action) (c : Z) (e : edge) (cb : callback) (bt : Z) :
  w_log (fst (run fuel (script pin_a pin_b) w)) =
    w_log w ++ l1 ++ AAddEventDetect c e cb bt :: l2 ->
  In (ASetmode BCM) l1 /\ In (ASetup c IN PUD_OFF) l1.
Proof.
  destruct (script_trace fuel pin_a pin_b w) as (k & j & E). intros H.
  rewrite E in H. apply app_inv_head in H.
  destruct k as [|[|[|[|[|k]]]]]; cbn in H; try rewrite firstn_nil in H; cbn in H;
    split_log H; cbn; split; auto 10.
Qed.

(** X2.  The main thread runs no command and prints nothing: on every
    platform, from every world and however far the script gets, whether the
    initialization succeeds or raises, the commands and the printed lines in
    the log are those that were there before. *)
Theorem script_runs_no_command (fuel : nat) (pin_a pin_b : Z) (w : world) :
  commands (w_log (fst (run fuel (script pin_a pin_b) w))) = commands (w_log w) /\
  notices (w_log (fst (run fuel (script pin_a pin_b) w))) = notices (w_log w).
Proof.
  destruct (script_trace fuel pin_a pin_b w) as (k & j & E). rewrite E.
  rewrite !commands_app, !notices_app, commands_sleeps, notices_sleeps.
  destruct k as [|[|[|[|[|[|k]]]]]]; cbn; rewrite !app_nil_r; split; reflexivity.
Qed.

Lemma play_log (h : list edge_event) :
  forall w,
    w_log (fst (play h w)) =
      w_log w ++ flat_map (fun i => [APrint (notice_of (inv_callback i));
                                     ASystem (command_of (inv_callback i))])
                          (snd (play h w)) /\
    commands (w_log (fst (play h w))) =
      commands (w_log w) ++ map (fun i => command_of (inv_callback i)) (snd (play h w)) /\
    notices (w_log (fst (play h w))) =
      notices (w_log w) ++ map (fun i => notice_of (inv_callback i)) (snd (play h w)).
Proof.
  induction h as [|ev h IH]; intros w.
  - cbn. rewrite !app_nil_r. auto.
  - rewrite play_cons_fst, play_cons_snd.
    destruct (deliver_cases ev w) as [E | (r & w' & _ & _ & _ & Lg & E & _)]; rewrite E.
    + exact (IH w).
    + cbn [fst snd]. destruct (IH w') as (L & C & N).
      split; [|split]; [rewrite L | rewrite C | rewrite N]; rewrite Lg;
        rewrite ?commands_app, ?notices_app; cbn; rewrite <- !app_assoc; reflexivity.
Qed.


(** X4.  In the world that the script sets up, after any history of edges,
    a rising edge (the button is released) and an edge on a channel other
    than 23 and 24 invoke nothing and change nothing. *)
Theorem other_edges_ignored (h : list edge_event) (ev : edge_event) :
  ev_transition ev = Rise \/ (ev_channel ev <> 23 /\ ev_channel ev <> 24) ->
  deliver ev (fst (play h booted)) = (fst (play h booted), []).
Proof.
  intros H. pose proof (play_armed h booted booted_armed) as A.
  destruct (deliver_cases ev (fst (play h booted)))
    as [E | (r & w' & F & D & _)]; [exact E | exfalso].
  destruct (armed_find _ _ _ A F) as [[Hc ->] | [Hc ->]];
    destruct H as [R | [N23 N24]]; try (rewrite R in D; discriminate D); auto.
Qed.

Lemma deliver_frame (ev : edge_event) (w : world) :
  w_mode (fst (deliver ev w)) = w_mode w /\ w_setup (fst (deliver ev w)) = w_setup w.
Proof.
  unfold deliver. destruct (find_detect (ev_channel ev) w) as [r|]; [|auto].
  destruct (detects _ _ && permitted r ev w); [|auto].
  rewrite run_body. auto.
Qed.

(** X5.  Edges and the callbacks they invoke leave the configuration alone:
    after any history of edges, from any world, the numbering mode, the
    channels set up and the registrations are what they were, so a channel
    that had a callback still has it. *)
Theorem edges_keep_configuration (h : list edge_event) :
  forall (w : world) (c : Z),
    w_mode (fst (play h w)) = w_mode w /\
    w_setup (fst (play h w)) = w_setup w /\
    w_detect (fst (play h w)) = w_detect w /\
    find_detect c (fst (play h w)) = find_detect c w.
Proof.
  induction h as [|ev h IH]; intros w c; [auto|].
  rewrite play_cons_fst. destruct (IH (fst (deliver ev w)) c) as (M & S & D & F).
  destruct (deliver_frame ev w) as [M' S']. pose proof (deliver_detect ev w) as D'.
  unfold find_detect in *. repeat split; congruence.
Qed.

Lemma on_channel_all (c : Z) (ev : edge_event) (h : list edge_event) :
  on_channel c (ev :: h) = ev :: h -> ev_channel ev = c /\ on_channel c h = h.
Proof.
  unfold on_channel. cbn [filter]. destruct (ev_channel ev =? c) eqn:E; intros H.
  - apply Z.eqb_eq in E. injection H as H. auto.
  - exfalso. pose proof (filter_length_le (fun ev0 => ev_channel ev0 =? c) h) as Le.
    rewrite H in Le. cbn in Le. lia.
Qed.

Lemma play_one_channel (c : Z) (h : list edge_event) :
  forall w, on_channel c h = h ->
    Forall (fun i => inv_channel i = c) (snd (play h w)).
Proof.
  induction h as [|ev h IH]; intros w H; [constructor|].
  apply on_channel_all in H. destruct H as [Hc Hh].
  rewrite play_cons_snd. apply Forall_app. split; [|apply IH; exact Hh].
  destruct (deliver_cases ev w) as [E | (r & w' & _ & _ & _ & _ & E & _)]; rewrite E;
    cbn; repeat constructor. exact Hc.
Qed.

(** X6.  The buttons are not crossed: a history of edges on channel 23 alone
    runs nothing but the shutdown command and prints nothing but "shutting
    down", and a history of edges on channel 24 alone runs nothing but the
    reboot command and prints nothing but "rebooting". *)
Theorem one_button_one_command (h : list edge_event) (c : Z) (cb : callback) :
  (c = 23 /\ cb = fn_shutdown) \/ (c = 24 /\ cb = fn_reboot) ->
  on_channel c h = h ->
  Forall (fun x => x = command_of cb) (commands (w_log (fst (play h booted)))) /\
  Forall (fun x => x = notice_of cb) (notices (w_log (fst (play h booted)))).
Proof.
  intros Hc Hh.
  destruct (play_log h booted) as (_ & C & N). rewrite C, N. cbn [app].
  pose proof (play_invocations h booted booted_armed) as I.
  pose proof (play_one_channel c h booted Hh) as O.
  assert (K : Forall (fun i => inv_callback i = cb) (snd (play h booted))).
  { rewrite Forall_forall in *. intros i Hi.
    specialize (I i Hi). specialize (O i Hi).
    destruct Hc as [[-> ->] | [-> ->]]; destruct I as [[Hb Hch] | [Hb Hch]];
      try exact Hb; rewrite Hch in O; discriminate O. }
  split; apply Forall_map; (eapply Forall_impl; [|exact K]); cbn; intros i ->; reflexivity.
Qed.

Lemma play_same_gpio (h : list edge_event) :
  forall w1 w2,
    w_detect w1 = w_detect w2 -> w_lastcall w1 = w_lastcall w2 ->
    snd (play h w1) = snd (play h w2) /\
    w_detect (fst (play h w1)) = w_detect (fst (play h w2)) /\
    w_lastcall (fst (play h w1)) = w_lastcall (fst (play h w2)).
Proof.
  induction h as [|ev h IH]; intros w1 w2 D L; [auto|].
  rewrite !play_cons_fst, !play_cons_snd.
  assert (S : snd (deliver ev w1) = snd (deliver ev w2) /\
              w_detect (fst (deliver ev w1)) = w_detect (fst (deliver ev w2)) /\
              w_lastcall (fst (deliver ev w1)) = w_lastcall (fst (deliver ev w2))).
  { unfold deliver, find_detect, permitted. rewrite D, L.
    destruct (find _ (w_detect w2)) as [r|]; [|auto].
    destruct (detects _ _ && _); [|auto].
    rewrite !run_body. cbn. rewrite D, L. auto. }
  destruct S as (S1 & S2 & S3). destruct (IH _ _ S2 S3) as (I1 & I2 & I3).
  rewrite S1, I1. auto.
Qed.

(** X7.  The loop does not get in the way of the buttons: however long the
    main thread has been in its loop, a history of edges invokes the same
    callbacks, at the same times and with the same outcomes, as it would have
    before the loop was entered. *)
Theorem loop_keeps_buttons (fuel : nat) (h : list edge_event) (w : world) :
  snd (play h (fst (run fuel main_loop w))) = snd (play h w) /\
  w_detect (fst (run fuel main_loop w)) = w_detect w /\
  w_lastcall (fst (run fuel main_loop w)) = w_lastcall w.
Proof.
  rewrite run_main_loop_any. cbn [fst].
  split; [|split; reflexivity].
  apply (play_same_gpio h (slept _ w) w); reflexivity.
Qed.

End Platform.


(** C7.  What os.system returns is dropped.  On two operating systems a
    callback makes the same calls and leaves the same world, whatever the
    command does on either; it runs its command once; it ends by returning
    when the command completes, with any status, and never with an
    exception.  The loop of the script runs on after an edge as it would
    have without it. *)
Theorem command_result_ignored (valid_channel : Z -> bool) (os os' : string -> option Z)
        (cb : callback) (pin : Z) (w : world) (ev : edge_event) (fuel : nat) :
  fst (run valid_channel os callback_fuel (body cb pin) w) =
    fst (run valid_channel os' callback_fuel (body cb pin) w) /\
  commands (w_log (fst (run valid_channel os callback_fuel (body cb pin) w))) =
    commands (w_log w) ++ [command_of cb] /\
  snd (run valid_channel os callback_fuel (body cb pin) w) =
    match os (command_of cb) with
    | Some _ => Finished tt
    | None => Blocked
    end /\
  (forall e, snd (run valid_channel os callback_fuel (body cb pin) w) <> Aborted e) /\
  run valid_channel os fuel main_loop (fst (deliver valid_channel os ev w)) =
    (slept (Nat.div2 (S fuel)) (fst (deliver valid_channel os ev w)), Running).
Proof.
  rewrite !run_body. cbn [fst snd]. repeat split.
  - cbn [logged w_log]. rewrite !commands_app, <- app_assoc. reflexivity.
  - intros e. unfold after_command. destruct (os (command_of cb)); discriminate.
  - apply run_main_loop_any.
Qed.

(** * Instances *)

(** C1, as stated, fails: on an operating system on which the shutdown
    command does not complete, the callback that an edge on channel 23
    invokes prints, calls os.system and is held there; it returns with no
    amount of fuel. *)
Lemma shutdown_waits_for_command :
  deliver bcm_header os_hangs (mkEdge 23 Fall 1000) booted =
    (logged (ASystem "sudo shutdown -h now")
       (logged (APrint "shutting down") (stamped 23 1000 booted)),
     [mkInvocation fn_shutdown 23 1000 Blocked]) /\
  forall fuel, snd (run bcm_header os_hangs fuel (shutdown 23) booted) <> Finished tt.
Proof.
  split; [reflexivity|].
  intros [|[|[|fuel]]]; cbn; discriminate.
Qed.

Lemma shutdown_edge_effect_witness :
  permitted (mkRegistration 23 FALLING fn_shutdown 200) (mkEdge 23 Fall 1000)
            (fst (play bcm_header os_ok [mkEdge 23 Fall 0; mkEdge 24 Fall 900] booted)) = true /\
  exists w',
    deliver bcm_header os_ok (mkEdge 23 Fall 1000)
            (fst (play bcm_header os_ok [mkEdge 23 Fall 0; mkEdge 24 Fall 900] booted)) =
      (w', [mkInvocation fn_shutdown 23 1000 (Finished tt)]) /\
    w_log w' = w_log (fst (play bcm_header os_ok [mkEdge 23 Fall 0; mkEdge 24 Fall 900] booted))
               ++ [APrint "shutting down"; ASystem "sudo shutdown -h now"] /\
    after_command os_ok "sudo shutdown -h now" = Finished tt.
Proof.
  split; [reflexivity|].
  apply (shutdown_edge_effect bcm_header os_ok [mkEdge 23 Fall 0; mkEdge 24 Fall 900] 1000).
  reflexivity.
Defined.

Lemma reboot_edge_effect_witness :
  (permitted (mkRegistration 24 FALLING fn_reboot 200) (mkEdge 24 Fall 1000)
             (fst (play bcm_header os_ok [mkEdge 24 Fall 0; mkEdge 23 Fall 900] booted)) = true /\
   on_channel 24 [mkEdge 23 Fall (-5); mkEdge 24 Fall 0; mkEdge 23 Fall 999]
   = on_channel 24 [mkEdge 24 Fall 0; mkEdge 23 Fall 900]) /\
  exists w1 w2,
    deliver bcm_header os_ok (mkEdge 24 Fall 1000)
            (fst (play bcm_header os_ok [mkEdge 24 Fall 0; mkEdge 23 Fall 900] booted)) =
      (w1, [mkInvocation fn_reboot 24 1000 (Finished tt)]) /\
    w_log w1 = w_log (fst (play bcm_header os_ok [mkEdge 24 Fall 0; mkEdge 23 Fall 900] booted))
               ++ [APrint "rebooting"; ASystem "sudo reboot"] /\
    deliver bcm_header os_ok (mkEdge 24 Fall 1000)
            (fst (play bcm_header os_ok
                       [mkEdge 23 Fall (-5); mkEdge 24 Fall 0; mkEdge 23 Fall 999] booted)) =
      (w2, [mkInvocation fn_reboot 24 1000 (Finished tt)]) /\
    w_log w2 = w_log (fst (play bcm_header os_ok
                                [mkEdge 23 Fall (-5); mkEdge 24 Fall 0; mkEdge 23 Fall 999]
                                booted))
               ++ [APrint "rebooting"; ASystem "sudo reboot"].
Proof.
  split; [split; reflexivity|].
  apply (reboot_edge_effect bcm_header os_ok
           [mkEdge 24 Fall 0; mkEdge 23 Fall 900]
           [mkEdge 23 Fall (-5); mkEdge 24 Fall 0; mkEdge 23 Fall 999] 1000);
    reflexivity.
Defined.

(** C3, as stated, fails: after an invocation at 0 ms, the edges at 100 ms
    and at 150 ms, 50 ms apart, invoke nothing, and in the history with one
    more edge at 400 ms the callback is invoked twice. *)
Lemma bounced_pair_invokes_nothing :
  Z.abs (150 - 100) <= 200 /\
  snd (play bcm_header os_ok [mkEdge 23 Fall 100; mkEdge 23 Fall 150]
            (fst (play bcm_header os_ok [mkEdge 23 Fall 0] booted))) = [] /\
  snd (play bcm_header os_ok
            [mkEdge 23 Fall 0; mkEdge 23 Fall 100; mkEdge 23 Fall 150; mkEdge 23 Fall 400]
            booted) =
    [mkInvocation fn_shutdown 23 0 (Finished tt);
     mkInvocation fn_shutdown 23 400 (Finished tt)].
Proof. split; [cbn; lia|]. split; reflexivity. Qed.

Lemma debounce_window_witness :
  (23 = 23 \/ 23 = 24) /\ Z.abs (1100 - 1000) <= 200 /\
  List.length (snd (play bcm_header os_ok [mkEdge 23 Fall 1000; mkEdge 23 Fall 1100]
                         (fst (play bcm_header os_ok [mkEdge 24 Fall 950] booted)))) = 1%nat /\
  spaced 200 (snd (play bcm_header os_ok
                        ([mkEdge 24 Fall 950] ++ [mkEdge 23 Fall 1000; mkEdge 23 Fall 1100])
                        booted)) = true.
Proof.
  assert (H1 : 23 = 23 \/ 23 = 24) by (left; reflexivity).
  assert (H2 : Z.abs (1100 - 1000) <= 200) by (cbn; lia).
  destruct (debounce_window bcm_header os_ok [mkEdge 24 Fall 950] 23 1000 1100 H1 H2)
    as (_ & _ & _ & First & Spaced).
  split; [exact H1|]. split; [exact H2|]. split; [|exact Spaced].
  apply First. reflexivity.
Defined.



Lemma main_loop_only_sleeps_witness :
  (bcm_header 23 = true /\ bcm_header 24 = true) /\
  run bcm_header os_ok 11 main fresh = (slept 3 booted, Running) /\
  commands (w_log (slept 3 booted)) = [].
Proof.
  split; [split; reflexivity|].
  destruct (main_loop_only_sleeps bcm_header os_ok 3 eq_refl eq_refl) as (R & _ & C & _).
  split; [exact R | exact C].
Defined.

Lemma initialize_registers_both_witness :
  (bcm_header 23 = true /\ bcm_header 24 = true /\
   claimed 23 fresh = false /\ claimed 24 fresh = false /\ 23 <> 24) /\
  exists w',
    run bcm_header os_ok (6 + 0) (initialize 23 24) fresh = (w', Finished tt) /\
    w_detect w' = w_detect fresh ++ [mkRegistration 23 FALLING fn_shutdown 200;
                                     mkRegistration 24 FALLING fn_reboot 200] /\
    detect_calls (w_log w') =
      detect_calls (w_log fresh) ++ [(23, fn_shutdown); (24, fn_reboot)] /\
    find_detect 23 w' = Some (mkRegistration 23 FALLING fn_shutdown 200) /\
    find_detect 24 w' = Some (mkRegistration 24 FALLING fn_reboot 200).
Proof.
  split; [repeat split; discriminate|].
  apply (initialize_registers_both bcm_header os_ok 23 24 fresh 0);
    try reflexivity; discriminate.
Defined.

Lemma pins_are_plain_inputs_witness :
  (bcm_header 23 = true /\ bcm_header 24 = true /\ 23 <> 24) /\
  exists w',
    run bcm_header os_ok 6 (initialize 23 24) fresh = (w', Finished tt) /\
    w_mode w' = Some BCM /\
    modes (w_log w') = [BCM] /\
    w_setup w' = [(23, IN, PUD_OFF); (24, IN, PUD_OFF)] /\
    setups (w_log w') = [(23, IN, PUD_OFF); (24, IN, PUD_OFF)].
Proof.
  split; [repeat split; discriminate|].
  destruct (pins_are_plain_inputs bcm_header os_ok 23 24 0) as (_ & _ & _ & Ok).
  apply Ok; try reflexivity; discriminate.
Defined.

Lemma setup_precedes_detect_witness :
  w_log (fst (run bcm_header os_ok 7 (script 23 24) fresh)) =
    w_log fresh ++ [ASetmode BCM; ASetup 23 IN PUD_OFF]
      ++ AAddEventDetect 23 FALLING fn_shutdown 200
         :: [ASetup 24 IN PUD_OFF; AAddEventDetect 24 FALLING fn_reboot 200;
             ASleep sleep_interval] /\
  In (ASetmode BCM) [ASetmode BCM; ASetup 23 IN PUD_OFF] /\
  In (ASetup 23 IN PUD_OFF) [ASetmode BCM; ASetup 23 IN PUD_OFF].
Proof.
  split; [reflexivity|].
  apply (setup_precedes_detect bcm_header os_ok 7 23 24 fresh
           [ASetmode BCM; ASetup 23 IN PUD_OFF]
           [ASetup 24 IN PUD_OFF; AAddEventDetect 24 FALLING fn_reboot 200;
            ASleep sleep_interval]
           23 FALLING fn_shutdown 200).
  reflexivity.
Defined.

Lemma other_edges_ignored_witness :
  (ev_transition (mkEdge 23 Rise 1000) = Rise \/
   (ev_channel (mkEdge 23 Rise 1000) <> 23 /\ ev_channel (mkEdge 23 Rise 1000) <> 24)) /\
  deliver bcm_header os_ok (mkEdge 23 Rise 1000)
          (fst (play bcm_header os_ok [mkEdge 24 Fall 10] booted)) =
    (fst (play bcm_header os_ok [mkEdge 24 Fall 10] booted), []).
Proof.
  split; [left; reflexivity|].
  apply (other_edges_ignored bcm_header os_ok [mkEdge 24 Fall 10] (mkEdge 23 Rise 1000)).
  left. reflexivity.
Defined.

Lemma one_button_one_command_witness :
  ((23 = 23 /\ fn_shutdown = fn_shutdown) \/ (23 = 24 /\ fn_shutdown = fn_reboot)) /\
  on_channel 23 [mkEdge 23 Fall 0; mkEdge 23 Fall 150; mkEdge 23 Fall 500]
  = [mkEdge 23 Fall 0; mkEdge 23 Fall 150; mkEdge 23 Fall 500] /\
  Forall (fun x => x = command_of fn_shutdown)
         (commands (w_log (fst (play bcm_header os_ok
                                     [mkEdge 23 Fall 0; mkEdge 23 Fall 150; mkEdge 23 Fall 500]
                                     booted)))) /\
  Forall (fun x => x = notice_of fn_shutdown)
         (notices (w_log (fst (play bcm_header os_ok
                                    [mkEdge 23 Fall 0; mkEdge 23 Fall 150; mkEdge 23 Fall 500]
                                    booted)))).
Proof.
  assert (H1 : (23 = 23 /\ fn_shutdown = fn_shutdown) \/ (23 = 24 /\ fn_shutdown = fn_reboot))
    by (left; split; reflexivity).
  split; [exact H1|]. split; [reflexivity|].
  apply (one_button_one_command bcm_header os_ok
           [mkEdge 23 Fall 0; mkEdge 23 Fall 150; mkEdge 23 Fall 500] 23 fn_shutdown H1).
  reflexivity.
Defined.
